(** * Stream transformers of the Minio JavaScript client

  A shallow embedding of the four through-streams built in the
  transformers module: [getConcater], [getErrorTransformer],
  [getSizeLimiter] and [getHashSummer].

  JavaScript values are an inductive type, the closures' captured
  variables ([bufs], [sizeRemaining], the two hash objects) are the
  explicit state of a stream, and the calls a callback makes on its
  stream ([this.push], [cb], [unpipe]) are recorded, in order, in a
  trace. *)

From Stdlib Require Import ZArith List String Ascii Bool Lia DecimalString.
From Stdlib.Strings Require Import Byte.
Import ListNotations.
Local Open Scope string_scope.
Local Open Scope list_scope.
Local Open Scope Z_scope.
#[local] Set Warnings "-register-all".

(** ** JavaScript values *)

Module JS.

(** The error classes the module constructs ([errors.S3Error],
    [errors.IncorrectSizeError]) or raises ([TypeError]). *)
Inductive errclass : Type :=
| TypeError
| S3Error
| IncorrectSizeError.

(** Numbers are the integers (status codes, byte counts), strings are
    byte strings (a text is held as its UTF-8 bytes), a Buffer is a list
    of bytes, an object is its list of own properties in insertion
    order, and a function is a function of the body text. *)
Inductive jsval : Type :=
| JUndefined
| JNull
| JBool (b : bool)
| JNum (n : Z)
| JStr (s : string)
| JBuffer (b : list byte)
| JObject (props : list (string * jsval))
| JError (cls : errclass) (props : list (string * jsval))
| JFunction (f : string -> jsval).

Definition object : Type := list (string * jsval).

(** [ToBoolean]: what [if (v)], [v && ...] and [!v] test. *)
Definition truthy (v : jsval) : bool :=
  match v with
  | JUndefined | JNull => false
  | JBool b => b
  | JNum n => negb (n =? 0)
  | JStr s => negb (String.eqb s "")
  | JBuffer _ | JObject _ | JError _ _ | JFunction _ => true
  end.

(** [o[k]] on the own properties. *)
Fixpoint get_prop (o : object) (k : string) : option jsval :=
  match o with
  | [] => None
  | (k', v) :: rest => if String.eqb k' k then Some v else get_prop rest k
  end.

(** [o[k] = v]: an existing property keeps its place, a new one goes
    last. *)
Fixpoint set_prop (o : object) (k : string) (v : jsval) : object :=
  match o with
  | [] => [(k, v)]
  | (k', v') :: rest =>
      if String.eqb k' k then (k', v) :: rest else (k', v') :: set_prop rest k v
  end.

(** Property assignment and lookup on a value; primitives have no own
    properties to set. *)
Definition assign (target : jsval) (k : string) (v : jsval) : jsval :=
  match target with
  | JObject props => JObject (set_prop props k v)
  | JError cls props => JError cls (set_prop props k v)
  | other => other
  end.

Definition prop (target : jsval) (k : string) : option jsval :=
  match target with
  | JObject props | JError _ props => get_prop props k
  | _ => None
  end.

Definition class_of (v : jsval) : option errclass :=
  match v with
  | JError cls _ => Some cls
  | _ => None
  end.

(** Modelled from the spec: errors.js is not among the sources.  The
    domain error constructor, "given a message string, produces a
    mutable error value to which kind and header fields are then
    attached"; the built-in [TypeError] is constructed the same way. *)
Definition new_error (cls : errclass) (message : string) : jsval :=
  JError cls [("message", JStr message)].

(** Modelled from the spec: helpers.js is not among the sources.
    [isFunction] tells the callable values from the others. *)
Definition isFunction (v : jsval) : bool :=
  match v with
  | JFunction _ => true
  | _ => false
  end.

(** The template literal [`${n}`] of an integer: its decimal digits,
    with a minus sign when negative. *)
Definition template_of_num (n : Z) : string :=
  NilZero.string_of_int (Z.to_int n).

(** lodash's [_.each] over an object: the iteratee sees (value, key) in
    property order and stops the iteration by returning [false]. *)
Fixpoint each {A : Type} (o : object) (iteratee : jsval -> string -> A -> A * jsval)
         (acc : A) : A :=
  match o with
  | [] => acc
  | (k, v) :: rest =>
      let (acc', returned) := iteratee v k acc in
      match returned with
      | JBool false => acc'
      | _ => each rest iteratee acc'
      end
  end.

End JS.
Import JS.

(** ** Buffers *)

Module Buffer.

(** [Buffer.concat(list)]. *)
Definition concat (bufs : list (list byte)) : list byte := List.concat bufs.

(** [buf.slice(start, end)]: a negative index counts from the end, and
    both indices are clamped to the buffer. *)
Definition slice (buf : list byte) (start end_ : Z) : list byte :=
  let len := Z.of_nat (List.length buf) in
  let clamp i := if i <? 0 then Z.max 0 (len + i) else Z.min i len in
  firstn (Z.to_nat (clamp end_ - clamp start)) (skipn (Z.to_nat (clamp start)) buf).

Definition hex_digit (n : N) : ascii :=
  nth (N.to_nat n) (list_ascii_of_string "0123456789abcdef") "0"%char.

(** The ['hex'] encoding: two lowercase digits per byte. *)
Fixpoint hex (buf : list byte) : string :=
  match buf with
  | [] => ""
  | b :: rest =>
      let n := Byte.to_N b in
      String (hex_digit (n / 16)) (String (hex_digit (n mod 16)) (hex rest))
  end.

Definition base64_digit (n : N) : ascii :=
  nth (N.to_nat n)
    (list_ascii_of_string
       "ABCDEFGHIJKLMNOPQRSTUVWXYZabcdefghijklmnopqrstuvwxyz0123456789+/")
    "="%char.

(** The ['base64'] encoding: three bytes give four digits, and a last
    group of one or two bytes is padded with [=]. *)
Fixpoint base64 (buf : list byte) : string :=
  match buf with
  | [] => ""
  | [a] =>
      let a := Byte.to_N a in
      String (base64_digit (a / 4))
        (String (base64_digit ((a mod 4) * 16)) "==")
  | [a; b] =>
      let a := Byte.to_N a in
      let b := Byte.to_N b in
      String (base64_digit (a / 4))
        (String (base64_digit ((a mod 4) * 16 + b / 16))
           (String (base64_digit ((b mod 16) * 4)) "="))
  | a :: b :: c :: rest =>
      let a := Byte.to_N a in
      let b := Byte.to_N b in
      let c := Byte.to_N c in
      String (base64_digit (a / 4))
        (String (base64_digit ((a mod 4) * 16 + b / 16))
           (String (base64_digit ((b mod 16) * 4 + c / 64))
              (String (base64_digit (c mod 64)) (base64 rest))))
  end%N.

(** [buf.toString(encoding)]; the default encoding reads the bytes as
    the text they encode. *)
Definition toString (encoding : string) (buf : list byte) : string :=
  if String.eqb encoding "hex" then hex buf
  else if String.eqb encoding "base64" then base64 buf
  else string_of_list_byte buf.

End Buffer.

(** ** Through streams *)

Module Stream.

(** A handle on an upstream producer that can be unpiped. *)
Definition producer : Type := nat.

(** What a callback does to its stream. [Push JNull] is
    [this.push(null)], the end-of-stream signal; [Cb JUndefined] is
    [cb()]. *)
Inductive event : Type :=
| Push (v : jsval)
| Cb (err : jsval)
| Unpipe (p : producer).

Inductive result (A : Type) : Type :=
| Ok (a : A)
| Thrown (exn : jsval).
Arguments Ok {A} a.
Arguments Thrown {A} exn.

(** A callback body: from the captured variables to the calls made, the
    captured variables afterwards, and the value returned or the
    exception thrown. *)
Definition Callback (S A : Type) : Type := S -> list event * S * result A.

Definition ret {S A : Type} (a : A) : Callback S A :=
  fun s => ([], s, Ok a).

Definition bind {S A B : Type} (m : Callback S A) (k : A -> Callback S B)
  : Callback S B :=
  fun s =>
    match m s with
    | (t, s', Ok a) => let '(t', s'', r) := k a s' in (t ++ t', s'', r)
    | (t, s', Thrown e) => (t, s', Thrown e)
    end.

Definition get {S : Type} : Callback S S := fun s => ([], s, Ok s).
Definition put {S : Type} (s : S) : Callback S unit := fun _ => ([], s, Ok tt).
Definition throw {S A : Type} (e : jsval) : Callback S A :=
  fun s => ([], s, Thrown e).
Definition emit {S : Type} (e : event) : Callback S unit :=
  fun s => ([e], s, Ok tt).

Definition push {S : Type} (v : jsval) : Callback S unit := emit (Push v).
Definition cb {S : Type} (err : jsval) : Callback S unit := emit (Cb err).
Definition unpipe {S : Type} (p : producer) : Callback S unit := emit (Unpipe p).

(** Calling a value: a function is applied, anything else raises the
    engine's [TypeError]. *)
Definition call {S : Type} (callee : jsval) (arg : string) : Callback S jsval :=
  match callee with
  | JFunction f => ret (f arg)
  | _ => throw (new_error TypeError "parser is not a function")
  end.

Declare Scope callback_scope.
Delimit Scope callback_scope with callback.
Notation "x <- m ;; k" := (bind m (fun x => k))
  (at level 61, m at next level, right associativity) : callback_scope.
Notation "m ;; k" := (bind m (fun _ => k))
  (at level 61, right associativity) : callback_scope.

(** What [Through2(options, transform, flush)] is given; [state0] holds
    the initial values of the variables the two functions close over. *)
Record through (S : Type) : Type := Through2 {
  objectMode : bool;
  state0 : S;
  transform : list byte -> Callback S unit;
  flush : Callback S unit
}.
Arguments Through2 {S} objectMode state0 transform flush.
Arguments objectMode {S} t.
Arguments state0 {S} t.
Arguments transform {S} t chunk.
Arguments flush {S} t.

(** [Through2.obj(transform, flush)]. *)
Definition Through2_obj {S : Type} := @Through2 S true.

(** The chunks reach [transform] one by one, in arrival order; a
    callback that throws stops the delivery. *)
Fixpoint deliver {S : Type} (t : through S) (chunks : list (list byte))
  : Callback S unit :=
  match chunks with
  | [] => ret tt
  | chunk :: rest => bind (transform t chunk) (fun _ => deliver t rest)
  end.

(** The calls made while the chunks arrive, and the variables after
    them. *)
Definition written {S : Type} (t : through S) (chunks : list (list byte))
  : list event * S * result unit :=
  deliver t chunks (state0 t).

Definition before_end {S : Type} (t : through S) (chunks : list (list byte))
  : list event :=
  fst (fst (written t chunks)).

Definition state_at_end {S : Type} (t : through S) (chunks : list (list byte)) : S :=
  snd (fst (written t chunks)).

(** The calls [flush] makes when the input completes after [chunks]. *)
Definition at_end {S : Type} (t : through S) (chunks : list (list byte))
  : list event * S * result unit :=
  flush t (state_at_end t chunks).

(** The whole run: every chunk, then the completion. *)
Definition run {S : Type} (t : through S) (chunks : list (list byte))
  : list event * S * result unit :=
  bind (deliver t chunks) (fun _ => flush t) (state0 t).

Definition calls {S A : Type} (r : list event * S * result A) : list event :=
  fst (fst r).

Definition thrown {S A : Type} (r : list event * S * result A) : option jsval :=
  match snd r with
  | Thrown e => Some e
  | Ok _ => None
  end.

(** The data items a trace hands downstream. *)
Fixpoint data (t : list event) : list jsval :=
  match t with
  | [] => []
  | Push JNull :: rest => data rest
  | Push v :: rest => v :: data rest
  | _ :: rest => data rest
  end.

(** Whether a trace signals end-of-stream downstream. *)
Fixpoint ended (t : list event) : bool :=
  match t with
  | [] => false
  | Push JNull :: _ => true
  | _ :: rest => ended rest
  end.

(** The stream's fatal error: the transform machinery raises ['error']
    with the callback's argument when that argument is truthy. *)
Fixpoint failure (t : list event) : option jsval :=
  match t with
  | [] => None
  | Cb err :: rest => if truthy err then Some err else failure rest
  | _ :: rest => failure rest
  end.

(** The producers a trace tells to stop, in order. *)
Fixpoint unpiped (t : list event) : list producer :=
  match t with
  | [] => []
  | Unpipe p :: rest => p :: unpiped rest
  | _ :: rest => unpiped rest
  end.

(** The bytes a trace forwards downstream. *)
Fixpoint forwarded (t : list event) : list byte :=
  match t with
  | [] => []
  | Push (JBuffer b) :: rest => b ++ forwarded rest
  | _ :: rest => forwarded rest
  end.

(** Whether a pushed value is a chunk with at least one byte: the test
    [chunk && chunk.length > 0] of the readable side. *)
Definition has_bytes (v : jsval) : bool :=
  match v with
  | JBuffer b => negb (Nat.eqb (List.length b) 0)
  | JStr s => negb (String.eqb s "")
  | _ => false
  end.

(** The items that reach the consumer of the stream.  The readable side
    takes [null] and [undefined] as the end-of-stream signal; in byte
    mode it drops a chunk without bytes, in object mode it keeps every
    other value; after the end-of-stream signal a push is refused and
    hands nothing on. *)
Fixpoint delivered_from (objectMode ended : bool) (t : list event) : list jsval :=
  match t with
  | [] => []
  | Push JNull :: rest | Push JUndefined :: rest => delivered_from objectMode true rest
  | Push v :: rest =>
      if negb ended && (objectMode || has_bytes v)
      then v :: delivered_from objectMode ended rest
      else delivered_from objectMode ended rest
  | _ :: rest => delivered_from objectMode ended rest
  end.

Definition delivered (objectMode : bool) (t : list event) : list jsval :=
  delivered_from objectMode false t.

End Stream.
Import Stream.
Local Open Scope callback_scope.

(** ** The transformers *)

Module Transformers.

(** The message of the [TypeError] that [getConcater] throws: the text
    [parser should be of type "function"], quotes included. *)
Definition parser_type_message : string :=
  "parser should be of type " ++ String "034"%char ("function" ++ String "034"%char "").

(** [getConcater(parser, emitError)]: [bufs] is the state of the stream.
    The construction itself throws on a truthy parser that is not a
    function. *)
Definition getConcater (parser : jsval) (emitError : bool)
  : result (through (list (list byte))) :=
  let objectMode := false in
  let bufs : list (list byte) := [] in
  if truthy parser && negb (isFunction parser) then
    Thrown (new_error TypeError parser_type_message)
  else
    let objectMode := if truthy parser then true else objectMode in
    Ok (Through2 objectMode bufs
          (fun chunk =>
             bufs <- get ;;
             put (bufs ++ [chunk]) ;;
             cb JUndefined)
          (bufs <- get ;;
           if emitError then
             e <- call parser (Buffer.toString "utf8" (Buffer.concat bufs)) ;;
             cb e ;;
             push JNull
           else
             (if negb (Nat.eqb (List.length bufs) 0) then
                if truthy parser then
                  parsed <- call parser (Buffer.toString "utf8" (Buffer.concat bufs)) ;;
                  push parsed
                else
                  push (JBuffer (Buffer.concat bufs))
              else ret tt) ;;
             cb JUndefined)).

(** The transport's response descriptor, as far as the module reads it. *)
Record response : Type := Response {
  statusCode : Z;
  headersSent : bool;
  getHeader : string -> jsval
}.

(** The [code] and [message] that [getErrorTransformer] derives from the
    status code. *)
Definition status_code_and_message (statusCode : Z) : string * string :=
  if statusCode =? 301 then
    ("MovedPermanently", "Moved Permanently")
  else if statusCode =? 307 then
    ("TemporaryRedirect", "Are you using the correct endpoint URL?")
  else if statusCode =? 403 then
    ("AccessDenied", "Valid and authorized credentials required")
  else if statusCode =? 404 then
    ("NotFound", "Not Found")
  else if statusCode =? 405 then
    ("MethodNotAllowed", "Method Not Allowed")
  else if statusCode =? 501 then
    ("MethodNotAllowed", "Method Not Allowed")
  else
    ("UnknownError", template_of_num statusCode).

(** The [headerInfo] object that [getErrorTransformer] fills in. *)
Definition header_info (r : response) : object :=
  let headerInfo : object := [] in
  let headerInfo :=
    set_prop headerInfo "amzRequestid"
      (if headersSent r then getHeader r "x-amz-request-id" else JNull) in
  let headerInfo :=
    set_prop headerInfo "amzId2"
      (if headersSent r then getHeader r "x-amz-id-2" else JNull) in
  let headerInfo :=
    set_prop headerInfo "amzBucketRegion"
      (if headersSent r then getHeader r "x-amz-bucket-region" else JNull) in
  headerInfo.

Section ErrorTransformer.

(** [xmlParsers.parseError], of xml-parsers.js, which is not among the
    sources: any function of the body text and the header object. *)
Variable parseError : string -> object -> jsval.

(** The parser that [getErrorTransformer] hands to [getConcater]. *)
Definition error_parser (r : response) (xmlString : string) : jsval :=
  let (code, message) := status_code_and_message (statusCode r) in
  let headerInfo := header_info r in
  if negb (truthy (JStr xmlString)) then
    let e := new_error S3Error message in
    let e := assign e "code" (JStr code) in
    let e := each headerInfo (fun value key e => (assign e key value, JUndefined)) e in
    e
  else
    parseError xmlString headerInfo.

Definition getErrorTransformer (r : response)
  : result (through (list (list byte))) :=
  getConcater (JFunction (error_parser r)) true.

End ErrorTransformer.

(** The message of the [IncorrectSizeError] of [getSizeLimiter]. *)
Definition incorrect_size_message (size : Z) : string :=
  "size of the input stream is not equal to the expected size("
    ++ template_of_num size ++ ")".

(** [getSizeLimiter(size, stream, chunker)]: [sizeRemaining] is the state
    of the stream. *)
Definition getSizeLimiter (size : Z) (stream chunker : producer) : through Z :=
  let sizeRemaining := size in
  Through2_obj sizeRemaining
    (fun chunk =>
       sizeRemaining <- get ;;
       let length := Z.min (Z.of_nat (List.length chunk)) sizeRemaining in
       let chunk :=
         if length <? Z.of_nat (List.length chunk) then Buffer.slice chunk 0 length
         else chunk in
       push (JBuffer chunk) ;;
       put (sizeRemaining - length) ;;
       sizeRemaining <- get ;;
       (if sizeRemaining =? 0 then
          unpipe stream ;;
          unpipe chunker ;;
          push JNull
        else ret tt) ;;
       cb JUndefined)
    (sizeRemaining <- get ;;
     if negb (sizeRemaining =? 0) then
       cb (new_error IncorrectSizeError (incorrect_size_message size))
     else
       push JNull ;;
       cb JUndefined).

(** A hash object of the crypto module: created, updated with data any
    number of times, and read once as the raw digest of what it was
    given. *)
Record Hash : Type := {
  hstate : Type;
  create : hstate;
  update : hstate -> list byte -> hstate;
  final : hstate -> list byte
}.

(** [hash.digest(encoding)]. *)
Definition digest (h : Hash) (st : hstate h) (encoding : string) : string :=
  Buffer.toString encoding (final h st).


(** What the crypto module promises of [update]: data may be streamed in
    pieces, the hash is that of their concatenation. *)
Record Streaming (h : Hash) : Prop := {
  update_nil : forall st, update h st [] = st;
  update_app : forall st a b, update h (update h st a) b = update h st (a ++ b)
}.

(** A hash object that keeps what it is given; it shows that the
    streaming contract can be met. *)
Definition keeping_hash : Hash :=
  {| hstate := list byte;
     create := [];
     update := fun st data => st ++ data;
     final := fun st => rev st |}.

Section HashSummer.

(** [Crypto.createHash(algorithm)]. *)
Variable createHash : string -> Hash.

(** [getHashSummer(anonymous)]: the two hash objects are the state of
    the stream. *)
Definition getHashSummer (anonymous : bool)
  : through (hstate (createHash "md5") * hstate (createHash "sha256")) :=
  let md5 := create (createHash "md5") in
  let sha256 := create (createHash "sha256") in
  Through2_obj (md5, sha256)
    (fun chunk =>
       hashes <- get ;;
       put (update (createHash "md5") (fst hashes) chunk, snd hashes) ;;
       (if negb anonymous then
          hashes <- get ;;
          put (fst hashes, update (createHash "sha256") (snd hashes) chunk)
        else ret tt) ;;
       cb JUndefined)
    (hashes <- get ;;
     let md5sum := digest (createHash "md5") (fst hashes) "base64" in
     let hashData := JObject [("md5sum", JStr md5sum)] in
     let hashData :=
       if negb anonymous then
         assign hashData "sha256sum"
           (JStr (digest (createHash "sha256") (snd hashes) "hex"))
       else hashData in
     push hashData ;;
     push JNull).

End HashSummer.

(** The text of a body received as [chunks]: what [flush] hands to the
    parser of a concatenator. *)
Definition body_text (chunks : list (list byte)) : string :=
  Buffer.toString "utf8" (Buffer.concat chunks).

(** The response parsers of xml-parsers.js, which is not among the
    sources: any functions of the body text. *)
Record xmlParsers : Type := {
  parseListBucket : string -> jsval;
  parseListMultipart : string -> jsval;
  parseListParts : string -> jsval;
  parseAcl : string -> jsval;
  parseInitiateMultipart : string -> jsval;
  parseListObjects : string -> jsval;
  parseCompleteMultipart : string -> jsval;
  parseBucketRegion : string -> jsval
}.

Section XmlTransformers.

Variable xml : xmlParsers.

(** The streams that parse a response body: each is [getConcater] with
    one parser and no second argument, so [emitError] is not set. *)
Definition getListBucketTransformer : result (through (list (list byte))) :=
  getConcater (JFunction (parseListBucket xml)) false.

Definition getListMultipartTransformer : result (through (list (list byte))) :=
  getConcater (JFunction (parseListMultipart xml)) false.

Definition getListPartsTransformer : result (through (list (list byte))) :=
  getConcater (JFunction (parseListParts xml)) false.

Definition getAclTransformer : result (through (list (list byte))) :=
  getConcater (JFunction (parseAcl xml)) false.

Definition getInitiateMultipartTransformer : result (through (list (list byte))) :=
  getConcater (JFunction (parseInitiateMultipart xml)) false.

Definition getListObjectsTransformer : result (through (list (list byte))) :=
  getConcater (JFunction (parseListObjects xml)) false.

Definition getCompleteMultipartTransformer : result (through (list (list byte))) :=
  getConcater (JFunction (parseCompleteMultipart xml)) false.

Definition getBucketRegionTransformer : result (through (list (list byte))) :=
  getConcater (JFunction (parseBucketRegion xml)) false.

End XmlTransformers.

(** The number of bytes received as [chunks]. *)
Definition total_length (chunks : list (list byte)) : Z :=
  Z.of_nat (List.length (List.concat chunks)).

End Transformers.
Import Transformers.

(** ** The spec's status table *)

Module Spec.

(** The status table as the specification prints it. *)
Definition status_table : list (Z * (string * string)) :=
  [ (301, ("MovedPermanently", "Moved Permanently"));
    (307, ("TemporaryRedirect", "Are you using the correct endpoint URL?"));
    (403, ("AccessDenied", "Valid and authorized credentials required"));
    (404, ("NotFound", "Not Found"));
    (405, ("MethodNotAllowed", "Method Not Allowed"));
    (501, ("MethodNotAllowed", "Method Not Allowed")) ].

Fixpoint lookup (table : list (Z * (string * string))) (statusCode : Z)
  : option (string * string) :=
  match table with
  | [] => None
  | (code, row) :: rest => if code =? statusCode then Some row else lookup rest statusCode
  end.

(** The row of a status code, the last row standing for every code the
    table does not list. *)
Definition classify (statusCode : Z) : string * string :=
  match lookup status_table statusCode with
  | Some row => row
  | None => ("UnknownError", template_of_num statusCode)
  end.

End Spec.

(** ** Running a stream *)

Section Delivery.

Context {S : Type} (t : through S).

Lemma deliver_snoc (chunks : list (list byte)) :
  forall (s0 : S) tr s chunk,
    deliver t chunks s0 = (tr, s, Ok tt) ->
    deliver t (chunks ++ [chunk]) s0
    = (let '(tr', s', r) := transform t chunk s in (tr ++ tr', s', r)).
Proof.
  induction chunks as [|c rest IH]; intros s0 tr s chunk; simpl.
  - unfold ret. intros E. injection E as <- <-.
    unfold bind. destruct (transform t chunk s0) as [[tr' s'] [[]|e]]; simpl;
      now rewrite ?app_nil_r.
  - unfold bind.
    destruct (transform t c s0) as [[tr0 s1] [[]|e]]; [|discriminate].
    destruct (deliver t rest s1) as [[tr1 s2] r1] eqn:E1.
    intros E. injection E as <- <- ->.
    rewrite (IH s1 tr1 s2 chunk E1).
    destruct (transform t chunk s2) as [[tr' s'] r'].
    now rewrite app_assoc.
Qed.

Lemma run_written (chunks : list (list byte)) tr s :
  written t chunks = (tr, s, Ok tt) ->
  run t chunks = (let '(tr', s', r) := flush t s in (tr ++ tr', s', r)).
Proof.
  unfold written, run, bind. now intros ->.
Qed.

End Delivery.

(** ** The size limiter *)

Module SizeLimiter.

Lemma slice_prefix (buf : list byte) (n : Z) :
  0 <= n <= Z.of_nat (List.length buf) ->
  Buffer.slice buf 0 n = firstn (Z.to_nat n) buf.
Proof.
  intros Hn. unfold Buffer.slice.
  replace (0 <? 0) with false by reflexivity.
  destruct (n <? 0) eqn:E; [apply Z.ltb_lt in E; lia|].
  rewrite (Z.min_l n) by lia. rewrite (Z.min_l 0) by lia.
  now rewrite Z.sub_0_r.
Qed.

Lemma transform_step size stream chunker (chunk : list byte) (remaining : Z) :
  0 <= remaining ->
  let length := Z.min (Z.of_nat (List.length chunk)) remaining in
  transform (getSizeLimiter size stream chunker) chunk remaining
  = (Push (JBuffer (firstn (Z.to_nat length) chunk))
       :: (if remaining - length =? 0
           then [Unpipe stream; Unpipe chunker; Push JNull] else [])
       ++ [Cb JUndefined],
     remaining - length, Ok tt).
Proof.
  intros Hr length. unfold getSizeLimiter, Through2_obj; simpl transform.
  unfold bind at 1. unfold get at 1. cbv beta iota zeta. fold length.
  assert (Hsent :
    (if length <? Z.of_nat (List.length chunk) then Buffer.slice chunk 0 length
     else chunk) = firstn (Z.to_nat length) chunk).
  { destruct (length <? Z.of_nat (List.length chunk)) eqn:E.
    - apply slice_prefix. subst length. lia.
    - apply Z.ltb_ge in E.
      replace (Z.to_nat length) with (List.length chunk) by (subst length; lia).
      now rewrite firstn_all. }
  rewrite Hsent.
  unfold bind, get, put, push, unpipe, cb, emit, ret.
  destruct (remaining - length =? 0); reflexivity.
Qed.

Lemma remaining_bounds size stream chunker (chunks : list (list byte)) :
  forall remaining, 0 <= remaining ->
    exists tr left,
      deliver (getSizeLimiter size stream chunker) chunks remaining = (tr, left, Ok tt)
      /\ 0 <= left <= remaining.
Proof.
  induction chunks as [|chunk rest IH]; intros remaining Hr.
  - exists [], remaining. split; [reflexivity | lia].
  - cbn [deliver]. unfold bind. rewrite transform_step by exact Hr.
    set (length := Z.min (Z.of_nat (List.length chunk)) remaining).
    destruct (IH (remaining - length)) as (tr & left & E & Hleft);
      [subst length; lia|].
    rewrite E. eexists _, left. split; [reflexivity | subst length; lia].
Qed.

Lemma written_ok size stream chunker (chunks : list (list byte)) :
  0 <= size ->
  let t := getSizeLimiter size stream chunker in
  written t chunks = (before_end t chunks, state_at_end t chunks, Ok tt)
  /\ 0 <= state_at_end t chunks <= size.
Proof.
  intros Hsize t. unfold before_end, state_at_end, written.
  destruct (remaining_bounds size stream chunker chunks size Hsize)
    as (tr & left & E & Hleft).
  change (state0 t) with size. subst t. rewrite E. simpl. split; [reflexivity | lia].
Qed.

(** C2 -- size limiter, per chunk.  With an expected size [size] (a byte
    count, so not negative) and after any earlier chunks, [remaining]
    stays between 0 and [size]; the next chunk has its first
    min(chunk length, remaining) bytes pushed downstream, the whole chunk
    when it fits, and [remaining] goes down by that number; when that
    leaves exactly zero, both producers are unpiped and end-of-stream is
    pushed, in this order, before the callback is called.  With size 5
    and chunks of 3 and 4 bytes: the first chunk goes through as it is,
    then the first 2 bytes of the second, then both unpipes and the
    end-of-stream; 5 bytes were forwarded. *)
Theorem limiter_forwards_up_to_size :
  forall (size : Z) (stream chunker : producer)
         (earlier : list (list byte)) (chunk : list byte),
    0 <= size ->
    let t := getSizeLimiter size stream chunker in
    let remaining := state_at_end t earlier in
    let length := Z.min (Z.of_nat (List.length chunk)) remaining in
    let sent := firstn (Z.to_nat length) chunk in
    (0 <= remaining <= size)
    /\ Z.of_nat (List.length sent) = length
    /\ (Z.of_nat (List.length chunk) <= remaining -> sent = chunk)
    /\ before_end t (earlier ++ [chunk])
       = before_end t earlier
           ++ Push (JBuffer sent)
           :: (if remaining - length =? 0
               then [Unpipe stream; Unpipe chunker; Push JNull] else [])
           ++ [Cb JUndefined]
    /\ state_at_end t (earlier ++ [chunk]) = remaining - length
    /\ (forall a b c d e f g : byte,
          let u := getSizeLimiter 5 stream chunker in
          before_end u [[a; b; c]; [d; e; f; g]]
          = [Push (JBuffer [a; b; c]); Cb JUndefined;
             Push (JBuffer [d; e]); Unpipe stream; Unpipe chunker; Push JNull;
             Cb JUndefined]
          /\ forwarded (before_end u [[a; b; c]; [d; e; f; g]]) = [a; b; c; d; e]
          /\ state_at_end u [[a; b; c]; [d; e; f; g]] = 0).
Proof.
  intros size stream chunker earlier chunk Hsize t remaining length sent.
  destruct (written_ok size stream chunker earlier Hsize) as [Hw Hb].
  fold t in Hw, Hb. fold remaining in Hw, Hb.
  assert (Hlen : 0 <= length <= Z.of_nat (List.length chunk))
    by (subst length; lia).
  pose proof (deliver_snoc t earlier (state0 t) _ _ chunk Hw) as Hsnoc.
  subst t. rewrite transform_step in Hsnoc by lia.
  fold length sent in Hsnoc.
  repeat split; try lia.
  - subst sent. rewrite length_firstn. lia.
  - intros Hfit. subst sent.
    replace (Z.to_nat length) with (List.length chunk) by (subst length; lia).
    apply firstn_all.
  - unfold before_end at 1, written. now rewrite Hsnoc.
  - unfold state_at_end at 1, written. now rewrite Hsnoc.
Qed.

Lemma limiter_forwards_up_to_size_witness :
  0 <= 5
  /\ before_end (getSizeLimiter 5 1%nat 2%nat)
       ([["a"; "b"; "c"]] ++ [["d"; "e"; "f"; "g"]])%byte
     = before_end (getSizeLimiter 5 1%nat 2%nat) [["a"; "b"; "c"]]%byte
         ++ [Push (JBuffer ["d"; "e"]%byte); Unpipe 1%nat; Unpipe 2%nat; Push JNull;
             Cb JUndefined].
Proof.
  split; [lia|].
  exact (proj1 (proj2 (proj2 (proj2
    (limiter_forwards_up_to_size 5 1%nat 2%nat
       [["a"; "b"; "c"]]%byte ["d"; "e"; "f"; "g"]%byte ltac:(lia)))))).
Defined.

(** C7 -- size limiter, at completion.  When the input completes, for
    any expected size [size] and any chunks delivered before: if
    [remaining] is not zero, the only call is the callback with an
    [IncorrectSizeError] whose message ends with the decimal form of
    [size] in parentheses, which is the stream's fatal error, and
    end-of-stream is not pushed; if [remaining] is zero, end-of-stream is
    pushed and the callback is called without an error.  With size 10
    and 7 bytes delivered the error message names 10. *)
Theorem limiter_end_checks_size :
  forall (size : Z) (stream chunker : producer) (chunks : list (list byte)),
    let t := getSizeLimiter size stream chunker in
    let remaining := state_at_end t chunks in
    let mismatch :=
      JError IncorrectSizeError
        [("message",
          JStr ("size of the input stream is not equal to the expected size("
                  ++ template_of_num size ++ ")"))] in
    calls (at_end t chunks)
    = (if remaining =? 0 then [Push JNull; Cb JUndefined] else [Cb mismatch])
    /\ failure (calls (at_end t chunks))
       = (if remaining =? 0 then None else Some mismatch)
    /\ ended (calls (at_end t chunks)) = (remaining =? 0)
    /\ data (calls (at_end t chunks)) = []
    /\ thrown (at_end t chunks) = None
    /\ (forall a b c d e f g : byte,
          let u := getSizeLimiter 10 stream chunker in
          state_at_end u [[a; b; c]; [d; e; f; g]] = 3
          /\ failure (calls (run u [[a; b; c]; [d; e; f; g]]))
             = Some (JError IncorrectSizeError
                       [("message",
                         JStr "size of the input stream is not equal to the expected size(10)")])
          /\ ended (calls (run u [[a; b; c]; [d; e; f; g]])) = false).
Proof.
  intros size stream chunker chunks t remaining mismatch.
  unfold at_end. fold remaining.
  unfold t, getSizeLimiter, Through2_obj; simpl flush.
  unfold bind, get, cb, push, emit, calls, thrown, new_error, incorrect_size_message.
  destruct (remaining =? 0); simpl; repeat split; reflexivity.
Qed.

End SizeLimiter.

(** ** The concatenator *)

Module Concater.

(** A stream whose [transform] only stores the chunk and calls back:
    after any chunks, the calls so far are one [cb()] per chunk and the
    buffer list is the chunks in arrival order. *)
Lemma deliver_buffering (t : through (list (list byte))) :
  (forall chunk bufs, transform t chunk bufs = ([Cb JUndefined], bufs ++ [chunk], Ok tt)) ->
  forall chunks bufs,
    deliver t chunks bufs
    = (repeat (Cb JUndefined) (List.length chunks), bufs ++ chunks, Ok tt).
Proof.
  intros Ht chunks. induction chunks as [|chunk rest IH]; intros bufs.
  - simpl. unfold ret. now rewrite app_nil_r.
  - cbn [deliver]. unfold bind. rewrite Ht, IH. simpl.
    now rewrite <- app_assoc.
Qed.


Lemma ended_callbacks (n : nat) : ended (repeat (Cb JUndefined) n) = false.
Proof. induction n; simpl; auto. Qed.

Lemma failure_callbacks (n : nat) (rest : list event) :
  failure (repeat (Cb JUndefined) n ++ rest) = failure rest.
Proof. induction n; simpl; auto. Qed.

Lemma data_after_callbacks (n : nat) (rest : list event) :
  data (repeat (Cb JUndefined) n ++ rest) = data rest.
Proof. induction n; simpl; auto. Qed.

Lemma ended_after_callbacks (n : nat) (rest : list event) :
  ended (repeat (Cb JUndefined) n ++ rest) = ended rest.
Proof. induction n; simpl; auto. Qed.

(** Whatever the parser and the flag, a concatenator that was built
    stores its chunks: nothing is pushed before the input completes. *)
Lemma built_buffers (parser : jsval) (emitError : bool) (t : through (list (list byte))) :
  getConcater parser emitError = Ok t ->
  forall chunks,
    written t chunks = (repeat (Cb JUndefined) (List.length chunks), chunks, Ok tt).
Proof.
  unfold getConcater.
  destruct (truthy parser && negb (isFunction parser)); [discriminate|].
  intros E. injection E as <-. intros chunks.
  unfold written. now rewrite deliver_buffering.
Qed.

Lemma nonempty_length {A : Type} (l : list A) :
  l <> [] -> Nat.eqb (List.length l) 0 = false.
Proof. destruct l; [congruence | reflexivity]. Qed.

Lemma delivered_after_callbacks (objectMode ended : bool) (n : nat) (rest : list event) :
  delivered_from objectMode ended (repeat (Cb JUndefined) n ++ rest)
  = delivered_from objectMode ended rest.
Proof. induction n; simpl; auto. Qed.

Lemma delivered_callbacks (objectMode ended : bool) (n : nat) :
  delivered_from objectMode ended (repeat (Cb JUndefined) n) = [].
Proof. induction n; simpl; auto. Qed.

Lemma has_bytes_buffer (b : list byte) : b <> [] -> has_bytes (JBuffer b) = true.
Proof. destruct b; [congruence | reflexivity]. Qed.

(** C4, as the code has it -- concatenator without a parser.  With no
    parser (an absent or otherwise falsy argument) and [emitError] not
    set, for every sequence of chunks that holds at least one byte: the
    stream is built in byte mode; while the chunks arrive it only calls
    back, so nothing is pushed, nothing reaches the consumer and the
    stream does not end; at completion it pushes once, the
    concatenation of the chunks in arrival order, then calls back
    without an error; what reaches the consumer over the whole run is
    that one buffer. *)
Theorem concater_without_parser :
  forall (parser : jsval) (chunks : list (list byte)),
    truthy parser = false ->
    List.concat chunks <> [] ->
    exists t,
      getConcater parser false = Ok t
      /\ objectMode t = false
      /\ before_end t chunks = repeat (Cb JUndefined) (List.length chunks)
      /\ delivered (objectMode t) (before_end t chunks) = []
      /\ ended (before_end t chunks) = false
      /\ calls (at_end t chunks) = [Push (JBuffer (List.concat chunks)); Cb JUndefined]
      /\ delivered (objectMode t) (calls (run t chunks)) = [JBuffer (List.concat chunks)]
      /\ failure (calls (run t chunks)) = None
      /\ thrown (run t chunks) = None.
Proof.
  intros parser chunks Hp Hbytes.
  assert (Hne : chunks <> []) by (intros ->; now apply Hbytes).
  destruct (getConcater parser false) as [t|e] eqn:Ht.
  2:{ unfold getConcater in Ht. rewrite Hp in Ht. discriminate. }
  pose proof (built_buffers _ _ _ Ht chunks) as Hw.
  exists t. split; [reflexivity|].
  unfold before_end, at_end, state_at_end. rewrite (run_written _ _ _ _ Hw), Hw.
  unfold getConcater in Ht. rewrite Hp in Ht. simpl in Ht. injection Ht as <-.
  simpl. unfold bind, get, push, cb, emit, ret, calls, thrown, Buffer.concat, delivered.
  rewrite (nonempty_length _ Hne). simpl.
  rewrite ended_callbacks, failure_callbacks, delivered_after_callbacks,
    delivered_callbacks.
  cbn [delivered_from failure truthy]. rewrite (has_bytes_buffer _ Hbytes).
  repeat split.
Qed.

Lemma concater_without_parser_witness :
  truthy JUndefined = false
  /\ List.concat [["a"; "b"]; ["c"]]%byte <> []
  /\ exists t,
       getConcater JUndefined false = Ok t
       /\ calls (at_end t [["a"; "b"]; ["c"]]%byte)
          = [Push (JBuffer ["a"; "b"; "c"]%byte); Cb JUndefined]
       /\ delivered (objectMode t) (calls (run t [["a"; "b"]; ["c"]]%byte))
          = [JBuffer ["a"; "b"; "c"]%byte].
Proof.
  split; [reflexivity|]. split; [discriminate|].
  destruct (concater_without_parser JUndefined [["a"; "b"]; ["c"]]%byte
              eq_refl ltac:(discriminate))
    as (t & Ht & _ & _ & _ & _ & Hend & Hrun & _).
  exists t. split; [exact Ht|]. split; [exact Hend | exact Hrun].
Defined.

(** C4, as the spec has it, fails -- with no parser and [emitError] not
    set, on the non-empty sequence made of one empty chunk: the stream
    is built in byte mode and the completion pushes the empty
    concatenation, which a byte-mode stream drops; no output unit
    reaches the consumer. *)
Lemma concater_without_parser_empty_chunk :
  [([] : list byte)] <> []
  /\ exists t,
       getConcater JUndefined false = Ok t
       /\ objectMode t = false
       /\ calls (at_end t [[]]) = [Push (JBuffer []); Cb JUndefined]
       /\ delivered (objectMode t) (calls (run t [[]])) = []
       /\ delivered (objectMode t) (calls (run t [[]])) <> [JBuffer (List.concat [[]])].
Proof.
  split; [discriminate|].
  eexists. split; [reflexivity|].
  repeat split; try reflexivity. discriminate.
Qed.

(** With no parser and [emitError] set the completion calls the absent
    parser, a call that the branch without [emitError] guards with
    [if (parser)]: on the one-byte chunk "a" the call throws and the
    concatenation is not pushed. *)
Lemma concater_without_parser_emitError :
  exists t,
    getConcater JUndefined true = Ok t
    /\ data (calls (run t [["a"]]%byte)) = []
    /\ data (calls (run t [["a"]]%byte)) <> [JBuffer (List.concat [["a"]]%byte)]
    /\ thrown (run t [["a"]]%byte)
       = Some (JError TypeError [("message", JStr "parser is not a function")]).
Proof.
  eexists. split; [reflexivity|].
  repeat split; try reflexivity. discriminate.
Qed.

(** With a parser and [emitError] set, whatever the chunks: the only
    calls at completion are the callback, given the parser's result on
    the body text, and the end-of-stream push. *)
Lemma emitError_run (f : string -> jsval) (chunks : list (list byte)) :
  exists t,
    getConcater (JFunction f) true = Ok t
    /\ run t chunks
       = (repeat (Cb JUndefined) (List.length chunks)
            ++ [Cb (f (body_text chunks)); Push JNull],
          chunks, Ok tt).
Proof.
  pose proof (built_buffers (JFunction f) true _ eq_refl chunks) as Hw.
  eexists. split; [reflexivity|].
  etransitivity; [exact (run_written _ _ _ _ Hw) | reflexivity].
Qed.

(** C5, as the code has it -- concatenator on an empty input.  When the
    input completes before any chunk: with no parser nothing is pushed,
    whatever [emitError], and without [emitError] the only call is the
    callback without an error; with a parser and without [emitError]
    nothing is pushed either, the only call being the callback without
    an error; with a parser and [emitError] the parser's result on the
    empty string is given to the callback as its error argument and is
    not pushed, end-of-stream is pushed, and that result is the stream's
    fatal error when it is truthy. *)
Theorem concater_on_empty_input :
  (forall emitError : bool,
      exists t,
        getConcater JUndefined emitError = Ok t
        /\ data (calls (run t [])) = [])
  /\ (exists t,
        getConcater JUndefined false = Ok t
        /\ calls (run t []) = [Cb JUndefined]
        /\ failure (calls (run t [])) = None)
  /\ (forall f : string -> jsval,
        exists t,
          getConcater (JFunction f) false = Ok t
          /\ calls (run t []) = [Cb JUndefined]
          /\ data (calls (run t [])) = []
          /\ failure (calls (run t [])) = None)
  /\ (forall f : string -> jsval,
        exists t,
          getConcater (JFunction f) true = Ok t
          /\ calls (run t []) = [Cb (f ""); Push JNull]
          /\ data (calls (run t [])) = []
          /\ ended (calls (run t [])) = true
          /\ failure (calls (run t []))
             = (if truthy (f "") then Some (f "") else None)).
Proof.
  repeat split.
  - intros [|]; eexists; split; reflexivity.
  - eexists. split; [reflexivity|]. repeat split.
  - intros f. eexists. split; [reflexivity|]. repeat split.
  - intros f. eexists. split; [reflexivity|].
    repeat split.
Qed.

(** C5, as the spec has it, fails -- with [emitError] and a parser that
    returns [null], on the empty input: the parser's result is given to
    the callback, and the stream ends with no fatal error at all. *)
Lemma concater_null_result_is_no_error :
  exists t,
    getConcater (JFunction (fun _ => JNull)) true = Ok t
    /\ calls (run t []) = [Cb JNull; Push JNull]
    /\ failure (calls (run t [])) = None
    /\ failure (calls (run t [])) <> Some JNull.
Proof.
  eexists. split; [reflexivity|]. repeat split; discriminate.
Qed.

(** C10 -- a falsy parse result under [emitError].  With a parser and
    [emitError] set, for any chunks: the parser's result on the body
    text goes to the flush callback as its error argument and
    end-of-stream is pushed; nothing is pushed as data; the stream has a
    fatal error exactly when that result is truthy, and the error is the
    result itself; so a result such as [null] or [undefined] ends the
    stream normally. *)
Theorem emitError_fails_only_on_truthy_result :
  forall (f : string -> jsval) (chunks : list (list byte)),
    exists t,
      getConcater (JFunction f) true = Ok t
      /\ calls (at_end t chunks) = [Cb (f (body_text chunks)); Push JNull]
      /\ data (calls (run t chunks)) = []
      /\ ended (calls (run t chunks)) = true
      /\ thrown (run t chunks) = None
      /\ failure (calls (run t chunks))
         = (if truthy (f (body_text chunks)) then Some (f (body_text chunks)) else None)
      /\ (exists u,
            getConcater (JFunction (fun _ => JNull)) true = Ok u
            /\ failure (calls (run u chunks)) = None
            /\ ended (calls (run u chunks)) = true
            /\ data (calls (run u chunks)) = [])
      /\ (exists u,
            getConcater (JFunction (fun _ => JUndefined)) true = Ok u
            /\ failure (calls (run u chunks)) = None
            /\ ended (calls (run u chunks)) = true
            /\ data (calls (run u chunks)) = []).
Proof.
  intros f chunks.
  assert (Hall : forall g : string -> jsval,
    exists t,
      getConcater (JFunction g) true = Ok t
      /\ calls (at_end t chunks) = [Cb (g (body_text chunks)); Push JNull]
      /\ data (calls (run t chunks)) = []
      /\ ended (calls (run t chunks)) = true
      /\ thrown (run t chunks) = None
      /\ failure (calls (run t chunks))
         = (if truthy (g (body_text chunks))
            then Some (g (body_text chunks)) else None)).
  { intros g. destruct (emitError_run g chunks) as (t & Ht & Hrun).
    exists t. split; [exact Ht|].
    pose proof (built_buffers _ _ _ Ht chunks) as Hw.
    unfold at_end, state_at_end. rewrite Hrun, Hw.
    unfold calls, thrown. cbn [fst snd].
    rewrite data_after_callbacks, ended_after_callbacks, failure_callbacks.
    unfold getConcater in Ht. simpl in Ht. injection Ht as <-.
    repeat split. }
  destruct (Hall f) as (t & Ht & Hend & Hdata & Hended & Hthrown & Hfail).
  exists t. repeat split; try assumption.
  - destruct (Hall (fun _ => JNull)) as (u & Hu & _ & Hd & He & _ & Hf).
    exists u. repeat split; assumption.
  - destruct (Hall (fun _ => JUndefined)) as (u & Hu & _ & Hd & He & _ & Hf).
    exists u. repeat split; assumption.
Qed.

(** C9, as the code has it -- a parser that is not a function.  For
    every parser argument that is truthy and not a function, and
    whatever [emitError], the construction throws a [TypeError] and
    returns no stream; a falsy argument is taken as no parser and the
    stream is built, in byte mode. *)
Theorem concater_rejects_truthy_non_function :
  forall (parser : jsval) (emitError : bool),
    isFunction parser = false ->
    (truthy parser = true ->
     getConcater parser emitError
     = Thrown (JError TypeError [("message", JStr parser_type_message)]))
    /\ (truthy parser = false ->
        exists t, getConcater parser emitError = Ok t /\ objectMode t = false).
Proof.
  intros parser emitError Hf. unfold getConcater. rewrite Hf.
  split; intros ->; simpl; [reflexivity|].
  eexists. split; reflexivity.
Qed.

Lemma concater_rejects_truthy_non_function_witness :
  isFunction (JStr "parse") = false
  /\ truthy (JStr "parse") = true
  /\ class_of (JError TypeError [("message", JStr parser_type_message)]) = Some TypeError
  /\ getConcater (JStr "parse") false
     = Thrown (JError TypeError [("message", JStr parser_type_message)]).
Proof.
  split; [reflexivity|]. split; [reflexivity|]. split; [reflexivity|].
  exact (proj1 (concater_rejects_truthy_non_function (JStr "parse") false eq_refl)
           eq_refl).
Defined.

(** C9, as the spec has it, fails -- the number 0 is not callable, and
    the construction with it as the parser succeeds: the stream behaves
    as one without a parser. *)
Lemma concater_accepts_falsy_non_function :
  isFunction (JNum 0) = false
  /\ exists t,
       getConcater (JNum 0) false = Ok t
       /\ calls (run t [["a"]]%byte)
          = [Cb JUndefined; Push (JBuffer ["a"]%byte); Cb JUndefined].
Proof.
  split; [reflexivity|]. eexists. split; reflexivity.
Qed.

End Concater.

(** ** The error transformer *)

Module ErrorTransformer.

Lemma status_code_and_message_table (statusCode : Z) :
  status_code_and_message statusCode = Spec.classify statusCode.
Proof.
  unfold status_code_and_message, Spec.classify, Spec.status_table.
  cbn [Spec.lookup].
  rewrite (Z.eqb_sym 301), (Z.eqb_sym 307), (Z.eqb_sym 403), (Z.eqb_sym 404),
    (Z.eqb_sym 405), (Z.eqb_sym 501).
  repeat match goal with
         | |- context [statusCode =? ?n] => destruct (statusCode =? n)
         end; reflexivity.
Qed.

(** The error built for an empty body, property by property. *)
Lemma error_parser_empty parseError (r : response) :
  error_parser parseError r ""
  = JError S3Error
      (("message", JStr (snd (status_code_and_message (statusCode r))))
         :: ("code", JStr (fst (status_code_and_message (statusCode r))))
         :: header_info r).
Proof.
  unfold error_parser.
  destruct (status_code_and_message (statusCode r)) as [code message].
  reflexivity.
Qed.

(** C1 -- status code to kind and message.  For every response, the
    code and message derived from its status code are the row of the
    status table: the six listed codes give their kind and message, any
    other code gives [UnknownError] with the decimal form of the code;
    418 gives [UnknownError] and "418".  The error built for an empty
    body, which is the fatal error of the stream on an empty body, is an
    [S3Error] carrying that kind as [code] and that message. *)
Theorem status_code_classification :
  forall (parseError : string -> object -> jsval) (r : response),
    status_code_and_message (statusCode r) = Spec.classify (statusCode r)
    /\ class_of (error_parser parseError r "") = Some S3Error
    /\ prop (error_parser parseError r "") "code"
       = Some (JStr (fst (Spec.classify (statusCode r))))
    /\ prop (error_parser parseError r "") "message"
       = Some (JStr (snd (Spec.classify (statusCode r))))
    /\ (exists t,
          getErrorTransformer parseError r = Ok t
          /\ failure (calls (run t [])) = Some (error_parser parseError r ""))
    /\ status_code_and_message 301 = ("MovedPermanently", "Moved Permanently")
    /\ status_code_and_message 307
       = ("TemporaryRedirect", "Are you using the correct endpoint URL?")
    /\ status_code_and_message 403
       = ("AccessDenied", "Valid and authorized credentials required")
    /\ status_code_and_message 404 = ("NotFound", "Not Found")
    /\ status_code_and_message 405 = ("MethodNotAllowed", "Method Not Allowed")
    /\ status_code_and_message 501 = ("MethodNotAllowed", "Method Not Allowed")
    /\ status_code_and_message 418 = ("UnknownError", "418").
Proof.
  intros parseError r.
  rewrite error_parser_empty, <- status_code_and_message_table.
  repeat split.
  eexists. split; [reflexivity|].
  change (calls (run _ [])) with [Cb (error_parser parseError r ""); Push JNull].
  rewrite error_parser_empty. reflexivity.
Qed.

(** C3 -- the parser of the error transformer.  For every response: the
    header object has the three fields [amzRequestid], [amzId2] and
    [amzBucketRegion], each the response's header ([x-amz-request-id],
    [x-amz-id-2], [x-amz-bucket-region]) when [headersSent] holds and
    [null] otherwise; on an empty body text the parser returns an
    [S3Error] made of the status-derived message and code followed by
    those three fields; on any other body text it returns what
    [parseError] returns on that text and the header object; and the
    stream is a concatenator with [emitError] whose completion gives the
    parser's result on the body text to the callback. *)
Theorem error_parser_behaviour :
  forall (parseError : string -> object -> jsval) (r : response) (xmlString : string),
    header_info r
    = [("amzRequestid", if headersSent r then getHeader r "x-amz-request-id" else JNull);
       ("amzId2", if headersSent r then getHeader r "x-amz-id-2" else JNull);
       ("amzBucketRegion",
        if headersSent r then getHeader r "x-amz-bucket-region" else JNull)]
    /\ error_parser parseError r xmlString
       = (if String.eqb xmlString "" then
            JError S3Error
              (("message", JStr (snd (status_code_and_message (statusCode r))))
                 :: ("code", JStr (fst (status_code_and_message (statusCode r))))
                 :: header_info r)
          else parseError xmlString (header_info r))
    /\ getErrorTransformer parseError r
       = getConcater (JFunction (error_parser parseError r)) true
    /\ (exists t,
          getErrorTransformer parseError r = Ok t
          /\ forall chunks,
               calls (at_end t chunks)
               = [Cb (error_parser parseError r (body_text chunks)); Push JNull]).
Proof.
  intros parseError r xmlString. split; [reflexivity|]. split.
  - destruct (String.eqb xmlString "") eqn:E.
    + apply String.eqb_eq in E. subst xmlString. apply error_parser_empty.
    + unfold error_parser.
      destruct (status_code_and_message (statusCode r)) as [code message].
      simpl. now rewrite E.
  - split; [reflexivity|].
    eexists. split; [reflexivity|]. intros chunks.
    pose proof (Concater.built_buffers
                  (JFunction (error_parser parseError r)) true _ eq_refl chunks) as Hw.
    unfold at_end, state_at_end. rewrite Hw. reflexivity.
Qed.

End ErrorTransformer.

(** ** The hash summer *)

Module HashSummer.

Lemma keeping_hash_streaming : Streaming keeping_hash.
Proof.
  split; simpl; intros.
  - apply app_nil_r.
  - symmetry. apply app_assoc.
Qed.



Section Summer.

Variable createHash : string -> Hash.
Hypothesis streaming : forall algorithm, Streaming (createHash algorithm).

(** After any chunks, each hash object holds what one [update] with the
    concatenation of the chunks gives; the second one is left as created
    when [anonymous]. *)
Lemma deliver_hashes (anonymous : bool) (chunks : list (list byte)) :
  forall md5 sha256,
    deliver (getHashSummer createHash anonymous) chunks (md5, sha256)
    = (repeat (Cb JUndefined) (List.length chunks),
       (update (createHash "md5") md5 (List.concat chunks),
        if anonymous then sha256
        else update (createHash "sha256") sha256 (List.concat chunks)),
       Ok tt).
Proof.
  induction chunks as [|chunk rest IH]; intros md5 sha256.
  - simpl. unfold ret. rewrite !(update_nil _ (streaming _)).
    now destruct anonymous.
  - cbn [deliver]. unfold bind at 1.
    assert (Hstep :
      transform (getHashSummer createHash anonymous) chunk (md5, sha256)
      = ([Cb JUndefined],
         (update (createHash "md5") md5 chunk,
          if anonymous then sha256 else update (createHash "sha256") sha256 chunk),
         Ok tt))
      by (destruct anonymous;
          cbv [getHashSummer Through2_obj transform bind get put cb emit ret fst snd
                 negb app];
          reflexivity).
    rewrite Hstep, IH. simpl.
    destruct anonymous; now rewrite !(update_app _ (streaming _)).
Qed.

Lemma summer_written (anonymous : bool) (chunks : list (list byte)) :
  written (getHashSummer createHash anonymous) chunks
  = (repeat (Cb JUndefined) (List.length chunks),
     (update (createHash "md5") (create (createHash "md5")) (List.concat chunks),
      if anonymous then create (createHash "sha256")
      else update (createHash "sha256") (create (createHash "sha256"))
             (List.concat chunks)),
     Ok tt).
Proof. unfold written. apply deliver_hashes. Qed.

End Summer.

(** C6 -- chunk boundaries do not matter.  Provided the hash objects of
    the crypto module hash what they are given in pieces as they hash it
    in one piece, two chunk sequences with the same concatenation make
    the hash summer push the same things at completion, hence hand the
    same record downstream, with [anonymous] or without. *)
Theorem summer_ignores_chunk_boundaries :
  forall (createHash : string -> Hash),
    (forall algorithm, Streaming (createHash algorithm)) ->
    forall (anonymous : bool) (chunks1 chunks2 : list (list byte)),
      List.concat chunks1 = List.concat chunks2 ->
      calls (at_end (getHashSummer createHash anonymous) chunks1)
      = calls (at_end (getHashSummer createHash anonymous) chunks2)
      /\ data (calls (run (getHashSummer createHash anonymous) chunks1))
         = data (calls (run (getHashSummer createHash anonymous) chunks2)).
Proof.
  intros createHash streaming anonymous chunks1 chunks2 Hsame.
  unfold at_end, state_at_end.
  rewrite !(run_written _ _ _ _ (summer_written createHash streaming anonymous _)).
  rewrite !summer_written by exact streaming.
  rewrite Hsame. cbn [fst snd].
  split; [reflexivity|].
  destruct (flush _ _) as [[tr s] res]. unfold calls. cbn [fst].
  now rewrite !Concater.data_after_callbacks.
Qed.

Lemma summer_ignores_chunk_boundaries_witness :
  (forall algorithm : string, Streaming ((fun _ => keeping_hash) algorithm))
  /\ List.concat [["0"; "1"; "2"; "3"; "4"; "5"; "6"; "7"; "8"; "9"]]%byte
     = List.concat
         [["0"]; ["1"]; ["2"]; ["3"]; ["4"]; ["5"]; ["6"]; ["7"]; ["8"]; ["9"]]%byte
  /\ data (calls (run (getHashSummer (fun _ => keeping_hash) false)
                    [["0"; "1"; "2"; "3"; "4"; "5"; "6"; "7"; "8"; "9"]]%byte))
     = data (calls (run (getHashSummer (fun _ => keeping_hash) false)
                      [["0"]; ["1"]; ["2"]; ["3"]; ["4"]; ["5"]; ["6"]; ["7"]; ["8"];
                       ["9"]]%byte)).
Proof.
  split; [intros _; exact keeping_hash_streaming|]. split; [reflexivity|].
  exact (proj2 (summer_ignores_chunk_boundaries (fun _ => keeping_hash)
                  (fun _ => keeping_hash_streaming) false
                  [["0"; "1"; "2"; "3"; "4"; "5"; "6"; "7"; "8"; "9"]]%byte
                  [["0"]; ["1"]; ["2"]; ["3"]; ["4"]; ["5"]; ["6"]; ["7"]; ["8"];
                   ["9"]]%byte eq_refl)).
Defined.



End HashSummer.

(** ** The size limiter: what goes through *)

Module LimiterBytes.

Lemma total_length_cons (chunk : list byte) (rest : list (list byte)) :
  total_length (chunk :: rest) = Z.of_nat (List.length chunk) + total_length rest.
Proof. unfold total_length. simpl. rewrite length_app. lia. Qed.

Lemma firstn_min (chunk : list byte) (r : Z) :
  0 <= r ->
  firstn (Z.to_nat (Z.min (Z.of_nat (List.length chunk)) r)) chunk
  = firstn (Z.to_nat r) chunk.
Proof.
  intros Hr. destruct (Z.le_gt_cases r (Z.of_nat (List.length chunk))).
  - now rewrite Z.min_r.
  - rewrite Z.min_l by lia. rewrite Nat2Z.id, firstn_all.
    symmetry. apply firstn_all2. lia.
Qed.

(** From [remaining] bytes allowed, any chunks: the bytes pushed are the
    first [remaining] bytes of the input, what is left is the shortfall
    or zero, no callback reports an error, and the end-of-stream push
    and the unpipes come exactly when some chunk arrived and the input
    reached [remaining] bytes. *)
Lemma deliver_summary size stream chunker (chunks : list (list byte)) :
  forall remaining, 0 <= remaining ->
    exists tr,
      deliver (getSizeLimiter size stream chunker) chunks remaining
      = (tr, Z.max 0 (remaining - total_length chunks), Ok tt)
      /\ forwarded tr = firstn (Z.to_nat remaining) (List.concat chunks)
      /\ failure tr = None
      /\ ended tr
         = (match chunks with [] => false | _ => true end
            && (remaining <=? total_length chunks))
      /\ (unpiped tr = [] <-> ended tr = false).
Proof.
  induction chunks as [|chunk rest IH]; intros remaining Hr.
  - exists []. simpl. unfold ret, total_length. simpl.
    rewrite Z.sub_0_r, Z.max_r by lia. rewrite firstn_nil.
    repeat split; reflexivity.
  - cbn [deliver]. unfold bind. rewrite SizeLimiter.transform_step by exact Hr.
    set (len := Z.min (Z.of_nat (List.length chunk)) remaining).
    assert (Hlen : 0 <= len <= remaining) by (subst len; lia).
    destruct (IH (remaining - len)) as (tr & E & Hfw & Hfail & Hend & Hunp); [lia|].
    rewrite E. rewrite total_length_cons.
    assert (Htotal : 0 <= total_length rest) by (unfold total_length; lia).
    replace (Z.max 0 (remaining - (Z.of_nat (List.length chunk) + total_length rest)))
      with (Z.max 0 (remaining - len - total_length rest)) by (subst len; lia).
    eexists. split; [reflexivity|].
    assert (Hsent : firstn (Z.to_nat len) chunk = firstn (Z.to_nat remaining) chunk)
      by (subst len; now apply firstn_min).
    assert (Hrest : Z.to_nat (remaining - len)
                    = (Z.to_nat remaining - List.length chunk)%nat)
      by (subst len; lia).
    split; [|split; [|split]].
    + cbn [List.concat]. rewrite firstn_app, <- Hsent, <- Hrest, <- Hfw.
      simpl. destruct (remaining - len =? 0); reflexivity.
    + simpl. destruct (remaining - len =? 0); simpl; exact Hfail.
    + cbn [ended app]. destruct (remaining - len =? 0) eqn:Ez; cbn [ended app].
      * apply Z.eqb_eq in Ez. symmetry. apply Z.leb_le. subst len. lia.
      * apply Z.eqb_neq in Ez. rewrite Hend.
        assert (Hgt : Z.of_nat (List.length chunk) < remaining) by (subst len; lia).
        replace len with (Z.of_nat (List.length chunk)) by (subst len; lia).
        destruct rest as [|c rest']; cbn [andb].
        -- symmetry. apply Z.leb_gt. unfold total_length. simpl. lia.
        -- set (T := total_length (c :: rest')).
           destruct (remaining - Z.of_nat (List.length chunk) <=? T) eqn:El;
             symmetry; [apply Z.leb_le; apply Z.leb_le in El
                       | apply Z.leb_gt; apply Z.leb_gt in El]; lia.
    + simpl. destruct (remaining - len =? 0); simpl; [|exact Hunp].
      split; discriminate.
Qed.

Lemma failure_app (tr rest : list event) :
  failure tr = None -> failure (tr ++ rest) = failure rest.
Proof.
  induction tr as [|[v|err|p] tr IH]; simpl; auto.
  destruct (truthy err); [discriminate | exact IH].
Qed.

Lemma limiter_written size stream chunker (chunks : list (list byte)) :
  0 <= size ->
  exists tr,
    written (getSizeLimiter size stream chunker) chunks
    = (tr, Z.max 0 (size - total_length chunks), Ok tt)
    /\ forwarded tr = firstn (Z.to_nat size) (List.concat chunks)
    /\ failure tr = None
    /\ ended tr
       = (match chunks with [] => false | _ => true end
          && (size <=? total_length chunks))
    /\ (unpiped tr = [] <-> ended tr = false).
Proof.
  intros Hsize. exact (deliver_summary size stream chunker chunks size Hsize).
Qed.

(** X1 -- only [size] bytes go through.  For a size that is not
    negative and any chunks, the bytes the limiter pushes while the
    chunks arrive are exactly the first [size] bytes of the input, so
    their number is the smaller of [size] and the input length, and
    [sizeRemaining] ends as the shortfall, or zero when the input is
    long enough. *)
Theorem limiter_forwards_prefix :
  forall (size : Z) (stream chunker : producer) (chunks : list (list byte)),
    0 <= size ->
    let t := getSizeLimiter size stream chunker in
    forwarded (before_end t chunks) = firstn (Z.to_nat size) (List.concat chunks)
    /\ Z.of_nat (List.length (forwarded (before_end t chunks)))
       = Z.min size (total_length chunks)
    /\ state_at_end t chunks = Z.max 0 (size - total_length chunks).
Proof.
  intros size stream chunker chunks Hsize t.
  destruct (limiter_written size stream chunker chunks Hsize)
    as (tr & Hw & Hfw & _).
  fold t in Hw. unfold before_end, state_at_end. rewrite Hw. cbn [fst snd].
  rewrite Hfw, length_firstn. unfold total_length.
  repeat split; lia.
Qed.

Lemma limiter_forwards_prefix_witness :
  0 <= 2
  /\ forwarded (before_end (getSizeLimiter 2 1%nat 2%nat) [["a"]; ["b"; "c"]; ["d"]]%byte)
     = firstn (Z.to_nat 2) (List.concat [["a"]; ["b"; "c"]; ["d"]]%byte).
Proof.
  split; [lia|].
  exact (proj1 (limiter_forwards_prefix 2 1%nat 2%nat
                  [["a"]; ["b"; "c"]; ["d"]]%byte ltac:(lia))).
Defined.

(** X2 -- the size check fails exactly on a short input.  For a size
    that is not negative and any chunks delivered before, the completion
    calls back without an error exactly when the input had at least
    [size] bytes; on an input longer than [size] the completion reports
    nothing, and on a shorter one it calls back with the
    [IncorrectSizeError]; no callback of the run throws. *)
Theorem limiter_fails_iff_short :
  forall (size : Z) (stream chunker : producer) (chunks : list (list byte)),
    0 <= size ->
    let t := getSizeLimiter size stream chunker in
    (failure (calls (at_end t chunks)) = None <-> size <= total_length chunks)
    /\ (size <= total_length chunks ->
        calls (at_end t chunks) = [Push JNull; Cb JUndefined])
    /\ (total_length chunks < size ->
        calls (at_end t chunks)
        = [Cb (new_error IncorrectSizeError (incorrect_size_message size))])
    /\ thrown (run t chunks) = None.
Proof.
  intros size stream chunker chunks Hsize t.
  destruct (limiter_written size stream chunker chunks Hsize)
    as (tr & Hw & _ & Hfail & _).
  fold t in Hw. rewrite (run_written _ _ _ _ Hw).
  unfold at_end, state_at_end. rewrite Hw. cbn [fst snd].
  unfold t, getSizeLimiter, Through2_obj; simpl flush.
  unfold bind, get, cb, push, emit, calls, thrown.
  destruct (Z.max 0 (size - total_length chunks) =? 0) eqn:E; cbn [negb fst snd];
    simpl.
  - apply Z.eqb_eq in E. repeat split; intros; try reflexivity; lia.
  - apply Z.eqb_neq in E. repeat split; intros; try reflexivity;
      try discriminate; lia.
Qed.

Lemma limiter_fails_iff_short_witness :
  0 <= 3
  /\ total_length [["a"]; ["b"]]%byte < 3
  /\ calls (at_end (getSizeLimiter 3 1%nat 2%nat) [["a"]; ["b"]]%byte)
     = [Cb (new_error IncorrectSizeError (incorrect_size_message 3))].
Proof.
  split; [lia|]. split; [reflexivity|].
  exact (proj1 (proj2 (proj2 (limiter_fails_iff_short 3 1%nat 2%nat
                                [["a"]; ["b"]]%byte ltac:(lia)))) eq_refl).
Defined.

(** X3 -- when the limiter stops its producers.  For a size that is not
    negative, end-of-stream is pushed while the chunks arrive exactly
    when at least one chunk arrived and the input reached [size] bytes;
    the producers are unpiped in exactly the same runs.  In particular
    nothing is stopped before the first chunk, even for size zero. *)
Theorem limiter_stops_when_full :
  forall (size : Z) (stream chunker : producer) (chunks : list (list byte)),
    0 <= size ->
    let t := getSizeLimiter size stream chunker in
    (ended (before_end t chunks) = true
     <-> chunks <> [] /\ size <= total_length chunks)
    /\ (unpiped (before_end t chunks) = [] <-> ended (before_end t chunks) = false).
Proof.
  intros size stream chunker chunks Hsize t.
  destruct (limiter_written size stream chunker chunks Hsize)
    as (tr & Hw & _ & _ & Hend & Hunp).
  fold t in Hw. unfold before_end. rewrite Hw. cbn [fst].
  split; [|exact Hunp].
  rewrite Hend. destruct chunks as [|c rest]; cbn [andb].
  - split; [discriminate | intros [H _]; congruence].
  - rewrite Z.leb_le. split; [intros H; split; [discriminate | exact H] | tauto].
Qed.

Lemma limiter_stops_when_full_witness :
  0 <= 0
  /\ unpiped (before_end (getSizeLimiter 0 1%nat 2%nat) []) = []
  /\ ended (before_end (getSizeLimiter 0 1%nat 2%nat) [[]]) = true.
Proof.
  split; [lia|]. split.
  - apply (proj2 (limiter_stops_when_full 0 1%nat 2%nat [] ltac:(lia))).
    reflexivity.
  - apply (proj1 (limiter_stops_when_full 0 1%nat 2%nat [[]] ltac:(lia))).
    split; [discriminate | unfold total_length; simpl; lia].
Defined.

Lemma transform_negative size stream chunker (chunk : list byte) (remaining : Z) :
  remaining < 0 ->
  transform (getSizeLimiter size stream chunker) chunk remaining
  = ([Push (JBuffer (firstn (Z.to_nat (Z.of_nat (List.length chunk) + remaining)) chunk));
      Unpipe stream; Unpipe chunker; Push JNull; Cb JUndefined],
     0, Ok tt).
Proof.
  intros Hr. unfold getSizeLimiter, Through2_obj; simpl transform.
  unfold bind at 1. unfold get at 1. cbv beta iota zeta.
  rewrite Z.min_r by lia.
  replace (remaining <? Z.of_nat (List.length chunk)) with true
    by (symmetry; apply Z.ltb_lt; lia).
  unfold Buffer.slice.
  replace (0 <? 0) with false by reflexivity.
  replace (remaining <? 0) with true by (symmetry; apply Z.ltb_lt; lia).
  rewrite (Z.min_l 0) by lia. rewrite Z.sub_0_r.
  replace (Z.to_nat (Z.max 0 (Z.of_nat (List.length chunk) + remaining)))
    with (Z.to_nat (Z.of_nat (List.length chunk) + remaining)) by lia.
  unfold bind, get, put, push, unpipe, cb, emit, ret.
  rewrite Z.sub_diag. reflexivity.
Qed.

(** X4 -- a negative size is not refused.  With a negative size, the
    first chunk goes through without its last [-size] bytes, the
    producers are unpiped and end-of-stream is pushed at once; no later
    chunk adds a byte, and the completion, once a chunk arrived, pushes
    end-of-stream and calls back without a size error. *)
Theorem limiter_negative_size :
  forall (size : Z) (stream chunker : producer)
         (chunk : list byte) (rest : list (list byte)),
    size < 0 ->
    let t := getSizeLimiter size stream chunker in
    before_end t [chunk]
    = [Push (JBuffer (firstn (Z.to_nat (Z.of_nat (List.length chunk) + size)) chunk));
       Unpipe stream; Unpipe chunker; Push JNull; Cb JUndefined]
    /\ forwarded (before_end t (chunk :: rest))
       = firstn (Z.to_nat (Z.of_nat (List.length chunk) + size)) chunk
    /\ state_at_end t (chunk :: rest) = 0
    /\ calls (at_end t (chunk :: rest)) = [Push JNull; Cb JUndefined].
Proof.
  intros size stream chunker chunk rest Hsize t.
  destruct (deliver_summary size stream chunker rest 0 ltac:(lia))
    as (tr & Hd & Hfw & Hfail & _).
  assert (Hzero : Z.max 0 (0 - total_length rest) = 0)
    by (unfold total_length; lia).
  rewrite Hzero in Hd. rewrite firstn_0 in Hfw.
  assert (Hw : written t (chunk :: rest)
               = ([Push (JBuffer (firstn (Z.to_nat (Z.of_nat (List.length chunk) + size))
                                    chunk));
                   Unpipe stream; Unpipe chunker; Push JNull; Cb JUndefined] ++ tr,
                  0, Ok tt)).
  { unfold written. cbn [deliver]. unfold bind. change (state0 t) with size.
    subst t. rewrite transform_negative by exact Hsize. now rewrite Hd. }
  split; [|split; [|split]].
  - unfold before_end, written. cbn [deliver]. unfold bind.
    change (state0 t) with size. subst t.
    now rewrite transform_negative by exact Hsize.
  - unfold before_end. rewrite Hw. cbn [fst]. simpl. rewrite Hfw. apply app_nil_r.
  - unfold state_at_end. now rewrite Hw.
  - unfold at_end, state_at_end. rewrite Hw. reflexivity.
Qed.

Lemma limiter_negative_size_witness :
  -1 < 0
  /\ forwarded (before_end (getSizeLimiter (-1) 1%nat 2%nat)
                  (["a"; "b"; "c"] :: [["d"]])%byte)
     = ["a"; "b"]%byte.
Proof.
  split; [lia|].
  exact (proj1 (proj2 (limiter_negative_size (-1) 1%nat 2%nat
                         ["a"; "b"; "c"]%byte [["d"]]%byte ltac:(lia)))).
Defined.

End LimiterBytes.

(** ** Concatenators with a parser *)

Module Parsing.

Lemma concat_empty_chunks (n : nat) : List.concat (repeat ([] : list byte) n) = [].
Proof. induction n; simpl; auto. Qed.

Lemma body_text_empty (chunks : list (list byte)) :
  body_text chunks = "" <-> List.concat chunks = [].
Proof.
  unfold body_text, Buffer.concat.
  change (Buffer.toString "utf8" (List.concat chunks))
    with (string_of_list_byte (List.concat chunks)).
  destruct (List.concat chunks); cbn [string_of_list_byte List.map string_of_list_ascii];
    split; intros H; try reflexivity; discriminate H.
Qed.

(** With a parser and without [emitError]: one [cb()] per chunk, then
    the parser's result is pushed and the callback called. *)
Lemma parsing_run (f : string -> jsval) (chunk : list byte) (rest : list (list byte)) :
  exists t,
    getConcater (JFunction f) false = Ok t
    /\ objectMode t = true
    /\ run t []  = ([Cb JUndefined], [], Ok tt)
    /\ at_end t (chunk :: rest)
       = ([Push (f (body_text (chunk :: rest))); Cb JUndefined], chunk :: rest, Ok tt)
    /\ run t (chunk :: rest)
       = (repeat (Cb JUndefined) (List.length (chunk :: rest))
            ++ [Push (f (body_text (chunk :: rest))); Cb JUndefined],
          chunk :: rest, Ok tt).
Proof.
  pose proof (Concater.built_buffers (JFunction f) false _ eq_refl (chunk :: rest))
    as Hw.
  eexists. split; [reflexivity|]. split; [reflexivity|]. split; [reflexivity|].
  split.
  - unfold at_end, state_at_end. rewrite Hw. reflexivity.
  - etransitivity; [exact (run_written _ _ _ _ Hw) | reflexivity].
Qed.

(** X5 -- a concatenator with a parser.  With a parser and without
    [emitError] the stream is in object mode and, once at least one
    chunk arrived, it calls back once per chunk and the completion
    pushes the parser's result on the whole body text, once, then calls
    back without an error; no callback throws.  What reaches the
    consumer is that result as the one item, unless the result is
    [null] or [undefined], which the stream takes as the end-of-stream
    signal: then no item reaches the consumer. *)
Theorem parsing_concater_emits_parse_result :
  forall (f : string -> jsval) (chunk : list byte) (rest : list (list byte)),
    exists t,
      getConcater (JFunction f) false = Ok t
      /\ objectMode t = true
      /\ calls (run t (chunk :: rest))
         = repeat (Cb JUndefined) (List.length (chunk :: rest))
             ++ [Push (f (body_text (chunk :: rest))); Cb JUndefined]
      /\ failure (calls (run t (chunk :: rest))) = None
      /\ thrown (run t (chunk :: rest)) = None
      /\ delivered (objectMode t) (calls (run t (chunk :: rest)))
         = match f (body_text (chunk :: rest)) with
           | JNull | JUndefined => []
           | parsed => [parsed]
           end.
Proof.
  intros f chunk rest.
  destruct (parsing_run f chunk rest) as (t & Ht & Hmode & _ & _ & Hrun).
  exists t. rewrite Hrun, Hmode. unfold calls, thrown, delivered. cbn [fst snd].
  rewrite Concater.failure_callbacks, Concater.delivered_after_callbacks.
  repeat split; try assumption.
  destruct (f (body_text (chunk :: rest))); reflexivity.
Qed.

(** X6 -- chunks are counted, not bytes.  What decides whether the
    completion pushes anything, when [emitError] is not set, is whether a
    chunk arrived, not whether a byte did: after any positive number of
    empty chunks a concatenator without a parser pushes an empty buffer
    and one with a parser pushes the parser's result on the empty
    string, while after no chunk at all neither pushes anything. *)
Theorem concater_counts_chunks_not_bytes :
  forall (f : string -> jsval) (n : nat),
    (exists t,
        getConcater JUndefined false = Ok t
        /\ calls (at_end t (repeat [] (S n))) = [Push (JBuffer []); Cb JUndefined]
        /\ calls (at_end t []) = [Cb JUndefined])
    /\ (exists t,
          getConcater (JFunction f) false = Ok t
          /\ calls (at_end t (repeat [] (S n))) = [Push (f ""); Cb JUndefined]
          /\ calls (at_end t []) = [Cb JUndefined]).
Proof.
  intros f n. split.
  - pose proof (Concater.built_buffers JUndefined false _ eq_refl (repeat [] (S n)))
      as Hw.
    eexists. split; [reflexivity|]. split; [|reflexivity].
    unfold at_end, state_at_end. rewrite Hw. cbn [fst snd].
    simpl. unfold bind, get, push, cb, emit, calls, Buffer.concat. simpl.
    now rewrite concat_empty_chunks.
  - destruct (parsing_run f [] (repeat [] n)) as (t & Ht & _ & Hempty & Hend & _).
    exists t. split; [exact Ht|]. split.
    + change (repeat [] (S n)) with (([] : list byte) :: repeat [] n).
      rewrite Hend. unfold calls. cbn [fst].
      assert (Hbody : body_text (([] : list byte) :: repeat [] n) = "").
      { apply body_text_empty. exact (concat_empty_chunks (S n)). }
      now rewrite Hbody.
    + unfold getConcater in Ht. simpl in Ht. injection Ht as <-. reflexivity.
Qed.

(** X7 -- chunk boundaries do not matter to a concatenator.  For any
    concatenator that was built, two chunk sequences with the same
    concatenation that are both empty or both not make the completion
    do the same calls and throw the same exception, if any. *)
Theorem concater_ignores_chunk_boundaries :
  forall (parser : jsval) (emitError : bool) (t : through (list (list byte)))
         (chunks1 chunks2 : list (list byte)),
    getConcater parser emitError = Ok t ->
    List.concat chunks1 = List.concat chunks2 ->
    (chunks1 = [] <-> chunks2 = []) ->
    calls (at_end t chunks1) = calls (at_end t chunks2)
    /\ thrown (at_end t chunks1) = thrown (at_end t chunks2).
Proof.
  intros parser emitError t chunks1 chunks2 Ht Hsame Hnil.
  unfold at_end, state_at_end.
  rewrite !(Concater.built_buffers _ _ _ Ht). cbn [fst snd].
  unfold getConcater in Ht.
  destruct (truthy parser && negb (isFunction parser)); [discriminate|].
  injection Ht as <-. cbn [flush].
  unfold bind, get. cbv beta iota zeta.
  unfold Buffer.concat. rewrite Hsame.
  assert (Hlen : Nat.eqb (List.length chunks1) 0 = Nat.eqb (List.length chunks2) 0).
  { destruct chunks1, chunks2; simpl; try reflexivity.
    - destruct Hnil as [H _]. now specialize (H eq_refl).
    - destruct Hnil as [_ H]. now specialize (H eq_refl). }
  rewrite Hlen. unfold calls, thrown.
  destruct emitError;
    [ destruct parser
    | destruct (Nat.eqb (List.length chunks2) 0); cbn [negb];
      [ | destruct (truthy parser); [destruct parser|] ] ];
    split; reflexivity.
Qed.

Lemma concater_ignores_chunk_boundaries_witness :
  List.concat [["a"; "b"]]%byte = List.concat [["a"]; []; ["b"]]%byte
  /\ ([["a"; "b"]]%byte = [] <-> [["a"]; []; ["b"]]%byte = [])
  /\ exists t,
       getConcater JUndefined false = Ok t
       /\ calls (at_end t [["a"; "b"]]%byte) = calls (at_end t [["a"]; []; ["b"]]%byte).
Proof.
  split; [reflexivity|]. split; [split; discriminate|].
  eexists. split; [reflexivity|].
  refine (proj1 (concater_ignores_chunk_boundaries JUndefined false _
                   [["a"; "b"]]%byte [["a"]; []; ["b"]]%byte eq_refl eq_refl _)).
  split; discriminate.
Defined.

End Parsing.

(** ** The response parsers' streams *)

Module XmlStreams.

Lemma parsing_stream (f : string -> jsval) (chunk : list byte) (rest : list (list byte)) :
  exists t,
    getConcater (JFunction f) false = Ok t
    /\ objectMode t = true
    /\ calls (at_end t (chunk :: rest))
       = [Push (f (body_text (chunk :: rest))); Cb JUndefined]
    /\ calls (run t []) = [Cb JUndefined].
Proof.
  destruct (Parsing.parsing_run f chunk rest) as (t & Ht & Hmode & Hempty & Hend & _).
  exists t. rewrite Hend, Hempty. repeat split; assumption.
Qed.

(** X8 -- the eight response streams.  Each of the streams for
    listBuckets, listMultipartUploads, listParts, getBucketACL,
    initMultipartUpload, listObjects, completeMultipartUpload and
    getBucketLocation is built without an exception, in object mode;
    once at least one chunk arrived its completion pushes the result of
    its own parser on the whole body text and calls back without an
    error, and after no chunk it pushes nothing. *)
Theorem xml_transformers_emit_their_parse :
  forall (xml : xmlParsers) (chunk : list byte) (rest : list (list byte)),
    Forall
      (fun '(stream, parse) =>
         exists t,
           stream = Ok t
           /\ objectMode t = true
           /\ calls (at_end t (chunk :: rest))
              = [Push (parse (body_text (chunk :: rest))); Cb JUndefined]
           /\ calls (run t []) = [Cb JUndefined])
      [ (getListBucketTransformer xml, parseListBucket xml);
        (getListMultipartTransformer xml, parseListMultipart xml);
        (getListPartsTransformer xml, parseListParts xml);
        (getAclTransformer xml, parseAcl xml);
        (getInitiateMultipartTransformer xml, parseInitiateMultipart xml);
        (getListObjectsTransformer xml, parseListObjects xml);
        (getCompleteMultipartTransformer xml, parseCompleteMultipart xml);
        (getBucketRegionTransformer xml, parseBucketRegion xml) ].
Proof.
  intros xml chunk rest.
  repeat (apply Forall_cons; [exact (parsing_stream _ chunk rest)|]).
  apply Forall_nil.
Qed.

End XmlStreams.

(** ** The error transformer: what the stream does *)

Module ErrorStream.

Lemma error_parser_nonempty parseError (r : response) (xmlString : string) :
  xmlString <> "" ->
  error_parser parseError r xmlString = parseError xmlString (header_info r).
Proof.
  intros Hne. unfold error_parser.
  destruct (status_code_and_message (statusCode r)) as [code message].
  simpl. destruct (String.eqb xmlString "") eqn:E; [|reflexivity].
  apply String.eqb_eq in E. contradiction.
Qed.

Lemma error_stream_run parseError (r : response) (chunks : list (list byte)) :
  exists t,
    getErrorTransformer parseError r = Ok t
    /\ objectMode t = true
    /\ calls (run t chunks)
       = repeat (Cb JUndefined) (List.length chunks)
           ++ [Cb (error_parser parseError r (body_text chunks)); Push JNull].
Proof.
  destruct (Concater.emitError_run (error_parser parseError r) chunks)
    as (t & Ht & Hrun).
  exists t. split; [exact Ht|]. rewrite Hrun. split; [|reflexivity].
  unfold getConcater in Ht. simpl in Ht. now injection Ht as <-.
Qed.

(** X9 -- an empty body always fails with the status error.  For every
    response and every parser of error bodies, when the chunks received
    hold no byte (no chunk, or empty chunks only) the error stream ends
    with the [S3Error] made from the status code and the header fields
    as its fatal error; it pushes no data item and pushes end-of-stream;
    the body parser has no say. *)
Theorem error_stream_empty_body :
  forall (parseError : string -> object -> jsval) (r : response)
         (chunks : list (list byte)),
    List.concat chunks = [] ->
    exists t,
      getErrorTransformer parseError r = Ok t
      /\ failure (calls (run t chunks))
         = Some (JError S3Error
                   (("message", JStr (snd (status_code_and_message (statusCode r))))
                      :: ("code", JStr (fst (status_code_and_message (statusCode r))))
                      :: header_info r))
      /\ data (calls (run t chunks)) = []
      /\ ended (calls (run t chunks)) = true.
Proof.
  intros parseError r chunks Hempty.
  destruct (error_stream_run parseError r chunks) as (t & Ht & _ & Hrun).
  exists t. split; [exact Ht|]. rewrite Hrun.
  rewrite Concater.failure_callbacks, Concater.data_after_callbacks,
    Concater.ended_after_callbacks.
  rewrite (proj2 (Parsing.body_text_empty chunks) Hempty).
  rewrite ErrorTransformer.error_parser_empty.
  repeat split.
Qed.

Lemma error_stream_empty_body_witness :
  List.concat [[]; []] = ([] : list byte)
  /\ exists t,
       getErrorTransformer (fun _ _ => JNull) (Response 404 false (fun _ => JUndefined))
       = Ok t
       /\ failure (calls (run t [[]; []]))
          = Some (JError S3Error
                    [("message", JStr "Not Found"); ("code", JStr "NotFound");
                     ("amzRequestid", JNull); ("amzId2", JNull);
                     ("amzBucketRegion", JNull)]).
Proof.
  split; [reflexivity|].
  destruct (error_stream_empty_body (fun _ _ => JNull)
              (Response 404 false (fun _ => JUndefined)) [[]; []] eq_refl)
    as (t & Ht & Hfail & _).
  exists t. split; [exact Ht | exact Hfail].
Defined.

(** X10 -- a non-empty body leaves the verdict to the body parser.  For
    every response, when the chunks received hold at least one byte the
    fatal error of the error stream is what [parseError] returns on the
    body text and the header object, provided that value is truthy; when
    it is falsy the stream has no fatal error at all, whatever the
    status code; in both cases no data item is pushed and end-of-stream
    is. *)
Theorem error_stream_body_verdict :
  forall (parseError : string -> object -> jsval) (r : response)
         (chunks : list (list byte)),
    List.concat chunks <> [] ->
    exists t,
      getErrorTransformer parseError r = Ok t
      /\ failure (calls (run t chunks))
         = (if truthy (parseError (body_text chunks) (header_info r))
            then Some (parseError (body_text chunks) (header_info r))
            else None)
      /\ data (calls (run t chunks)) = []
      /\ ended (calls (run t chunks)) = true.
Proof.
  intros parseError r chunks Hne.
  destruct (error_stream_run parseError r chunks) as (t & Ht & _ & Hrun).
  exists t. split; [exact Ht|]. rewrite Hrun.
  rewrite Concater.failure_callbacks, Concater.data_after_callbacks,
    Concater.ended_after_callbacks.
  rewrite error_parser_nonempty
    by (intros H; apply Parsing.body_text_empty in H; contradiction).
  repeat split.
Qed.

Lemma error_stream_body_verdict_witness :
  List.concat [["<"]]%byte <> []
  /\ exists t,
       getErrorTransformer (fun _ _ => JNull) (Response 403 true (fun _ => JUndefined))
       = Ok t
       /\ failure (calls (run t [["<"]]%byte)) = None.
Proof.
  split; [discriminate|].
  destruct (error_stream_body_verdict (fun _ _ => JNull)
              (Response 403 true (fun _ => JUndefined)) [["<"]]%byte
              ltac:(discriminate))
    as (t & Ht & Hfail & _).
  exists t. split; [exact Ht | exact Hfail].
Defined.

(** X11 -- which codes are unknown.  A status code gets [UnknownError]
    with its own decimal form as the message exactly when it is none of
    301, 307, 403, 404, 405 and 501. *)
Theorem unknown_error_iff_unlisted :
  forall statusCode : Z,
    status_code_and_message statusCode = ("UnknownError", template_of_num statusCode)
    <-> ~ In statusCode [301; 307; 403; 404; 405; 501].
Proof.
  intros statusCode. unfold status_code_and_message. cbn [In].
  repeat match goal with
         | |- context [statusCode =? ?n] =>
             let E := fresh "E" in
             destruct (statusCode =? n) eqn:E;
             [apply Z.eqb_eq in E | apply Z.eqb_neq in E]
         end;
    (split; [intros H; try discriminate H; lia | intros H; try reflexivity]);
    exfalso; apply H; lia.
Qed.

End ErrorStream.

(** ** The hash summer: any hash objects *)

Module SummerUpdates.

Section AnyHash.

Variable createHash : string -> Hash.

(** Whatever the hash objects are, the chunks reach them by [update] in
    arrival order, the second one only without [anonymous]. *)
Lemma deliver_updates (anonymous : bool) (chunks : list (list byte)) :
  forall md5 sha256,
    deliver (getHashSummer createHash anonymous) chunks (md5, sha256)
    = (repeat (Cb JUndefined) (List.length chunks),
       (fold_left (update (createHash "md5")) chunks md5,
        if anonymous then sha256
        else fold_left (update (createHash "sha256")) chunks sha256),
       Ok tt).
Proof.
  induction chunks as [|chunk rest IH]; intros md5 sha256.
  - simpl. unfold ret. now destruct anonymous.
  - cbn [deliver]. unfold bind at 1.
    assert (Hstep :
      transform (getHashSummer createHash anonymous) chunk (md5, sha256)
      = ([Cb JUndefined],
         (update (createHash "md5") md5 chunk,
          if anonymous then sha256 else update (createHash "sha256") sha256 chunk),
         Ok tt))
      by (destruct anonymous;
          cbv [getHashSummer Through2_obj transform bind get put cb emit ret fst snd
                 negb app];
          reflexivity).
    rewrite Hstep, IH. simpl. now destruct anonymous.
Qed.

End AnyHash.

(** X12 -- the summary, for any hash objects.  With no assumption on
    the hash objects: while the chunks arrive the summer only calls
    back; each chunk is given to the md5 object by [update], in arrival
    order, and to the sha256 object too unless [anonymous], in which
    case that object is left as created; the completion pushes the
    record of the digests of these objects and end-of-stream, and
    [md5sum] is the same with [anonymous] and without. *)
Theorem summer_updates_in_order :
  forall (createHash : string -> Hash) (anonymous : bool) (chunks : list (list byte)),
    let md5 := fold_left (update (createHash "md5")) chunks (create (createHash "md5")) in
    let sha256 :=
      fold_left (update (createHash "sha256")) chunks (create (createHash "sha256")) in
    before_end (getHashSummer createHash anonymous) chunks
    = repeat (Cb JUndefined) (List.length chunks)
    /\ state_at_end (getHashSummer createHash anonymous) chunks
       = (md5, if anonymous then create (createHash "sha256") else sha256)
    /\ calls (at_end (getHashSummer createHash true) chunks)
       = [Push (JObject
                  [("md5sum", JStr (Buffer.base64 (final (createHash "md5") md5)))]);
          Push JNull]
    /\ calls (at_end (getHashSummer createHash false) chunks)
       = [Push (JObject
                  [("md5sum", JStr (Buffer.base64 (final (createHash "md5") md5)));
                   ("sha256sum", JStr (Buffer.hex (final (createHash "sha256") sha256)))]);
          Push JNull].
Proof.
  intros createHash anonymous chunks md5 sha256.
  unfold before_end, state_at_end, at_end, state_at_end, written.
  cbn [state0 getHashSummer Through2_obj].
  rewrite !deliver_updates. cbn [fst snd].
  repeat split.
Qed.

End SummerUpdates.
